(** * VideoRecorder: the recording session coordinator

    A shallow embedding of [src/components/recording/VideoRecorder.tsx]:
    the component state held by React ([useState], [useRef] and the three
    hooks it consumes), its event handlers ([checkPermissions],
    [scanForCameras], [startRecording], [stopRecording]), and the wiring of
    the buttons to these handlers.  Handlers are written in a small
    state-and-exception monad so that they read like the TypeScript; the
    answers of the outside world (camera driver, USB bus, position provider,
    upload pipeline) are arguments of the handlers. *)

From Stdlib Require Import ZArith List String Bool Lia.
From Stdlib Require DecimalString DecimalZ.
Import ListNotations.
Open Scope string_scope.
Open Scope Z_scope.

(** ** Data *)

(** A promise settles one of two ways. *)
Inductive Outcome (A : Type) : Type :=
| Resolved (a : A)
| Rejected (err : string).
Arguments Resolved {A} a.
Arguments Rejected {A} err.

(** Ids come from two drivers: [device.id] of a built-in camera is a string,
    [device.deviceId] of a USB device is a number. *)
Inductive JsId : Type :=
| IdStr (s : string)
| IdNum (n : Z).

(** The [type] field of a merged entry: ['built-in'] or ['usb']. *)
Inductive CameraType : Type := BuiltIn | Usb.

(** An element of [allCameras]: [{ id, name, type }]. *)
Record CameraEntry : Type := mkCameraEntry {
  cam_id : JsId;
  cam_name : string;
  cam_type : CameraType
}.

(** What [Camera.getAvailableCameras()] yields, as far as the component
    reads it. *)
Record BuiltinDevice : Type := mkBuiltinDevice {
  dev_id : string;
  dev_name : string
}.

(** What [UsbManager.getDeviceList()] yields, as far as the component reads
    it: [deviceId], [getDeviceClass()], [getProductName()]. *)
Record UsbDevice : Type := mkUsbDevice {
  deviceId : Z;
  getDeviceClass : Z;
  getProductName : string
}.

(** One position fix of the GPS log (coordinates are carried, never
    computed on; they are kept as scaled integers). *)
Record GpsLogEntry : Type := mkGpsLogEntry {
  timestamp : Z;
  latitude : Z;
  longitude : Z;
  accuracyMeters : option Z
}.

(** What [cameraRef.current.stopRecording()] resolves to. *)
Record Artifact : Type := mkArtifact {
  uri : string;
  durationSeconds : Z;
  sizeBytes : Z
}.

(** The options object handed to [cameraRef.current.startRecording]. *)
Record RecordOptions : Type := mkRecordOptions {
  quality : string;
  maxDuration : Z;
  maxFileSize : Z
}.

Inductive UploadOutcome : Type :=
| Success
| Failure (reason : string).

(** Everything the component does to the outside, in the order it does it. *)
Inductive Effect : Type :=
| Alert (msg : string)
| ConsoleWarn (msg : string)
| ConsoleError (msg : string)
| GpsStartCalled (started : bool)
| GpsStopCalled
| SetIsRecording (b : bool)
| TimerStarted
| TimerStopped
| CameraStart (opts : RecordOptions) (ack : bool)
| CameraStop (ok : bool)
| UploadSubmitted (chunks : list Artifact) (log : list GpsLogEntry)
                  (duration : Z) (gpsError : bool)
| UploadSettled (o : UploadOutcome)
| UnhandledRejection (err : string).

(** State of [useVideoRecording]. *)
Record Recording : Type := mkRecording {
  isRecording : bool;
  recordingTime : Z;
  timerRef : bool            (* an interval is installed *)
}.

(** State of [useGPS]. *)
Record Gps : Type := mkGps {
  gpsEnabled : bool;
  gpsAccuracy : option Z;
  gpsLogRef : list GpsLogEntry;
  hasGpsError : bool;
  gpsErrorMessage : string
}.

(** State of the component, of the camera behind [cameraRef], and the
    effects performed so far (oldest first). *)
Record State : Type := mkState {
  cameras : list CameraEntry;
  selectedCamera : option CameraEntry;
  hasPermission : option bool;
  loading : bool;
  recording : Recording;
  gps : Gps;
  camRecording : bool;
  trace : list Effect
}.

Definition with_cameras (l : list CameraEntry) (s : State) : State :=
  mkState l (selectedCamera s) (hasPermission s) (loading s)
          (recording s) (gps s) (camRecording s) (trace s).

Definition with_selectedCamera (c : option CameraEntry) (s : State) : State :=
  mkState (cameras s) c (hasPermission s) (loading s)
          (recording s) (gps s) (camRecording s) (trace s).

Definition with_hasPermission (p : option bool) (s : State) : State :=
  mkState (cameras s) (selectedCamera s) p (loading s)
          (recording s) (gps s) (camRecording s) (trace s).

Definition with_recording (r : Recording) (s : State) : State :=
  mkState (cameras s) (selectedCamera s) (hasPermission s) (loading s)
          r (gps s) (camRecording s) (trace s).

Definition with_gps (g : Gps) (s : State) : State :=
  mkState (cameras s) (selectedCamera s) (hasPermission s) (loading s)
          (recording s) g (camRecording s) (trace s).

Definition with_camRecording (b : bool) (s : State) : State :=
  mkState (cameras s) (selectedCamera s) (hasPermission s) (loading s)
          (recording s) (gps s) b (trace s).

Definition with_trace (t : list Effect) (s : State) : State :=
  mkState (cameras s) (selectedCamera s) (hasPermission s) (loading s)
          (recording s) (gps s) (camRecording s) t.

(** The state right after the first render: [useState([])],
    [useState(null)], [useState(null)], [useState(false)], idle hooks. *)
Definition initialState : State :=
  mkState [] None None false
          (mkRecording false 0 false)
          (mkGps false None [] false "")
          false [].

(** ** The handler monad: state plus JavaScript exceptions *)

Inductive Completion (A : Type) : Type :=
| Normal (a : A)
| Throw (err : string).
Arguments Normal {A} a.
Arguments Throw {A} err.

Definition Comp (A : Type) : Type := State -> Completion A * State.

Definition ret {A} (a : A) : Comp A := fun s => (Normal a, s).

Definition bind {A B} (m : Comp A) (k : A -> Comp B) : Comp B :=
  fun s => match m s with
           | (Normal a, s') => k a s'
           | (Throw e, s') => (Throw e, s')
           end.

Definition throw {A} (e : string) : Comp A := fun s => (Throw e, s).

(** [try { body } catch (error) { handler error }] *)
Definition try_catch {A} (body : Comp A) (handler : string -> Comp A) : Comp A :=
  fun s => match body s with
           | (Normal a, s') => (Normal a, s')
           | (Throw e, s') => handler e s'
           end.

Definition gets {A} (f : State -> A) : Comp A := fun s => (Normal (f s), s).

Definition modify (f : State -> State) : Comp unit := fun s => (Normal tt, f s).

Definition emit (e : Effect) : Comp unit :=
  modify (fun s => with_trace (trace s ++ [e]) s).

(** [await p]: the value of a fulfilled promise, the exception of a rejected
    one. *)
Definition await {A} (p : Outcome A) : Comp A :=
  match p with
  | Resolved a => ret a
  | Rejected e => throw e
  end.

Declare Scope comp_scope.
Delimit Scope comp_scope with comp.
Notation "x <- m ;; k" := (bind m (fun x => k))
  (at level 61, m at next level, right associativity) : comp_scope.
Notation "m ;; k" := (bind m (fun _ => k))
  (at level 61, right associativity) : comp_scope.
Open Scope comp_scope.

Definition exec {A} (m : Comp A) (s : State) : State := snd (m s).
Definition result {A} (m : Comp A) (s : State) : Completion A := fst (m s).

(** ** The hooks

    [useVideoRecording], [useGPS] and [useVideoUpload] are imported by the
    component; their files are not part of the component's source. *)

(** Modelled from the spec: [useVideoRecording] (missing) — §4.3, "elapsed-time
    counting is a simple incrementing counter driven by a steady tick".
    [startTimer] installs the tick, [stopTimer] removes it. *)
Definition setIsRecording (b : bool) : Comp unit :=
  emit (SetIsRecording b);;
  modify (fun s => with_recording
    (mkRecording b (recordingTime (recording s)) (timerRef (recording s))) s).

(** Modelled from the spec: [useVideoRecording] (missing), the setter of the
    elapsed-seconds counter. *)
Definition setRecordingTime (t : Z) : Comp unit :=
  modify (fun s => with_recording
    (mkRecording (isRecording (recording s)) t (timerRef (recording s))) s).

(** Modelled from the spec: [useVideoRecording] (missing), §4.3 Starting,
    "begin elapsed-time counting". *)
Definition startTimer : Comp unit :=
  emit TimerStarted;;
  modify (fun s => with_recording
    (mkRecording (isRecording (recording s)) (recordingTime (recording s)) true) s).

(** Modelled from the spec: [useVideoRecording] (missing), §4.3 Stopping,
    "stop elapsed-time counting". *)
Definition stopTimer : Comp unit :=
  emit TimerStopped;;
  modify (fun s => with_recording
    (mkRecording (isRecording (recording s)) (recordingTime (recording s)) false) s).

(** Modelled from the spec: [useVideoRecording] (missing); the elapsed
    counter is what the hook can report. *)
Definition getRecordingDuration : Comp Z :=
  gets (fun s => recordingTime (recording s)).

(** Modelled from the spec: [useGPS] (missing) — §4.2, [start() -> boolean]:
    true when sampling began; "a failed start returns directly to Stopped and
    reports an error flag".  [available] is the position provider's answer
    (permission granted and a provider present). *)
Definition startGpsTracking (available : bool) : Comp bool :=
  emit (GpsStartCalled available);;
  modify (fun s => with_gps
    (if available
     then mkGps true (gpsAccuracy (gps s)) (gpsLogRef (gps s)) false ""
     else mkGps false (gpsAccuracy (gps s)) (gpsLogRef (gps s)) true
                "GPS unavailable") s);;
  ret available.

(** Modelled from the spec: [useGPS] (missing) — §4.2, [stop()] "freezes and
    returns the accumulated log, then clears internal state for reuse.
    Calling stop() while in Stopped returns an empty sequence, not an
    error". The error flag is status, not log state: it stays as it is. *)
Definition stopGpsTracking : Comp (list GpsLogEntry) :=
  emit GpsStopCalled;;
  g <- gets gps;;
  if gpsEnabled g
  then modify (with_gps (mkGps false None [] (hasGpsError g) (gpsErrorMessage g)));;
       ret (gpsLogRef g)
  else ret [].

(** Modelled from the spec: [useVideoUpload] (missing) — §4.3 Stopping and
    Uploading, §4.4: "stop GPS sampling and capture the frozen log", "hand
    artifact + log to UploadHandoff", and "upload completion (success or
    failure) is the event that finally resets RecordingSession to Idle".
    The serialised form of the log is not fixed by the spec; the log itself
    stands for it.  The spec gives no contract for the [setLoading] callback,
    which is left alone. *)
Definition uploadRecording (chunks : list Artifact) (duration : Z)
                           (outcome : UploadOutcome) : Comp unit :=
  log <- stopGpsTracking;;
  err <- gets (fun s => hasGpsError (gps s));;
  emit (UploadSubmitted chunks log duration err);;
  emit (UploadSettled outcome);;
  setIsRecording false;;
  setRecordingTime 0.

(** ** Background callbacks *)

Inductive Background : Type :=
| Tick
| GpsFix (e : GpsLogEntry).

Definition last_timestamp (l : list GpsLogEntry) : option Z :=
  match rev l with
  | [] => None
  | e :: _ => Some (timestamp e)
  end.

(** Modelled from the spec: the recurring callbacks of [useVideoRecording]
    and [useGPS] (missing) — §4.3 "incrementing counter driven by a steady
    tick"; §4.2 "each successful fix appends one GpsLogEntry", only while
    sampling is active, and an out-of-order fix is dropped (of the two
    policies the spec allows, this is the one taken here). *)
Definition background (b : Background) (s : State) : State :=
  match b with
  | Tick =>
      let r := recording s in
      if timerRef r
      then with_recording (mkRecording (isRecording r) (recordingTime r + 1) true) s
      else s
  | GpsFix e =>
      let g := gps s in
      if gpsEnabled g
      then match last_timestamp (gpsLogRef g) with
           | Some t =>
               if timestamp e <? t then s
               else with_gps (mkGps true (accuracyMeters e) (gpsLogRef g ++ [e])
                                    (hasGpsError g) (gpsErrorMessage g)) s
           | None =>
               with_gps (mkGps true (accuracyMeters e) (gpsLogRef g ++ [e])
                               (hasGpsError g) (gpsErrorMessage g)) s
           end
      else s
  end.

Definition afterCallbacks (bs : list Background) (s : State) : State :=
  fold_left (fun acc b => background b acc) bs s.

(** The callbacks that fire while a handler is suspended on an [await]. *)
Definition meanwhile (bs : list Background) : Comp unit :=
  modify (afterCallbacks bs).

(** ** The camera behind [cameraRef] *)

(** The [<Camera ref={cameraRef} .../>] element is rendered only when
    [hasPermission] is [true] (lines 136-151); otherwise
    [cameraRef.current] is [null]. *)
Definition cameraMounted (s : State) : bool :=
  match hasPermission s with
  | Some true => true
  | _ => false
  end.

Definition nullRefError : string :=
  "TypeError: Cannot read properties of null".

(** Modelled from the spec: the camera subsystem (external) — §6,
    [startCapture(device, {maxDurationSeconds, maxSizeBytes}) -> ack|error].
    Reading a method off a [null] ref throws a [TypeError].  [during] are the
    callbacks delivered while the call is awaited. *)
Definition camera_startRecording (opts : RecordOptions)
    (during : list Background) (ack : Outcome unit) : Comp unit :=
  mounted <- gets cameraMounted;;
  if mounted
  then emit (CameraStart opts (match ack with Resolved _ => true | _ => false end));;
       meanwhile during;;
       _ <- await ack;;
       modify (with_camRecording true)
  else throw nullRefError.

(** Modelled from the spec: the camera subsystem (external) — §6,
    [stopCapture() -> Artifact|error]. *)
Definition camera_stopRecording (during : list Background)
    (res : Outcome Artifact) : Comp Artifact :=
  mounted <- gets cameraMounted;;
  if mounted
  then emit (CameraStop (match res with Resolved _ => true | _ => false end));;
       meanwhile during;;
       data <- await res;;
       modify (with_camRecording false);;
       ret data
  else throw nullRefError.

(** Modelled from the spec: the camera subsystem (external) — §4.3, the caps
    are "communicated at start time" and enforced by the camera, which then
    ends the capture on its own.  The component registers no callback for
    this (the [<Camera>] element receives [ref], [style], [type] and
    [device] only), so nothing of the component runs. *)
Definition capReached (s : State) : State := with_camRecording false s.

(** ** The component's handlers (lines 57-134) *)

Definition setCameras (l : list CameraEntry) : Comp unit :=
  modify (with_cameras l).

Definition setSelectedCamera (c : option CameraEntry) : Comp unit :=
  modify (with_selectedCamera c).

Definition setHasPermission (b : bool) : Comp unit :=
  modify (with_hasPermission (Some b)).

(** Lines 57-60, for a permission request that settles with a status; a
    request that is rejected is not part of the model. *)
Definition checkPermissions (cameraPermission : string) : Comp unit :=
  setHasPermission (String.eqb cameraPermission "authorized").

(** Line 70: [device.getDeviceClass() === 6]. *)
Definition isImaging (device : UsbDevice) : bool := getDeviceClass device =? 6.

(** Lines 68-71. *)
Definition usbCameras (usbDevices : list UsbDevice) : list UsbDevice :=
  filter isImaging usbDevices.

(** Lines 74-78. *)
Definition builtinEntry (device : BuiltinDevice) : CameraEntry :=
  mkCameraEntry (IdStr (dev_id device)) (dev_name device) BuiltIn.

(** Lines 79-83. *)
Definition usbEntry (device : UsbDevice) : CameraEntry :=
  mkCameraEntry (IdNum (deviceId device))
                ("USB Camera (" ++ getProductName device ++ ")") Usb.

(** Lines 73-84. *)
Definition allCameras (devices : list BuiltinDevice)
                      (usbDevices : list UsbDevice) : list CameraEntry :=
  map builtinEntry devices ++ map usbEntry (usbCameras usbDevices).

(** Lines 62-91.  [builtin] and [usb] are how the two enumerations settle.
    The USB promise is neither awaited nor returned: its [then] callback runs
    only on fulfilment, and a rejection goes unhandled. *)
Definition scanForCameras (builtin : Outcome (list BuiltinDevice))
                          (usb : Outcome (list UsbDevice)) : Comp unit :=
  devices <- await builtin;;
  match usb with
  | Resolved usbDevices =>
      let all := allCameras devices usbDevices in
      setCameras all;;
      if 0 <? Z.of_nat (List.length all)
      then setSelectedCamera (nth_error all 0)
      else ret tt
  | Rejected e => emit (UnhandledRejection e)
  end.

(** Lines 108-110. *)
Definition recordOptions : RecordOptions :=
  mkRecordOptions "720p" 300 (50 * 1024 * 1024).

(** Lines 93-118. *)
Definition startRecording (gpsAvailable : bool) (during : list Background)
                          (ack : Outcome unit) : Comp unit :=
  sel <- gets selectedCamera;;
  match sel with
  | None => emit (Alert "Please select a camera")
  | Some _ =>
      gpsStarted <- startGpsTracking gpsAvailable;;
      (if negb gpsStarted
       then emit (ConsoleWarn "GPS tracking could not be started")
       else ret tt);;
      try_catch
        (setIsRecording true;;
         startTimer;;
         camera_startRecording recordOptions during ack)
        (fun error =>
           emit (ConsoleError "Failed to start recording:");;
           _ <- stopGpsTracking;;
           setIsRecording false;;
           stopTimer)
  end.

(** Lines 120-134. *)
Definition stopRecording (during : list Background) (res : Outcome Artifact)
                         (outcome : UploadOutcome) : Comp unit :=
  try_catch
    (data <- camera_stopRecording during res;;
     stopTimer;;
     duration <- getRecordingDuration;;
     uploadRecording [data] duration outcome)
    (fun error => emit (ConsoleError "Failed to stop recording:")).

(** ** The rendered controls (lines 136-201) *)

(** Line 181: [disabled={loading || !selectedCamera}]. *)
Definition recordButtonDisabled (s : State) : bool :=
  loading s || match selectedCamera s with Some _ => false | None => true end.

(** What the outside world answers during one press of the record button. *)
Record World : Type := mkWorld {
  gpsAvailable : bool;
  startDuring : list Background;
  startAck : Outcome unit;
  stopDuring : list Background;
  stopRes : Outcome Artifact;
  uploadOutcome : UploadOutcome
}.

(** Lines 178-186: [onPress={isRecording ? stopRecording : startRecording}]
    on a button that ignores presses while disabled. *)
Definition pressRecord (w : World) : Comp unit :=
  disabled <- gets recordButtonDisabled;;
  if disabled then ret tt
  else
    rec <- gets (fun s => isRecording (recording s));;
    if rec
    then stopRecording (stopDuring w) (stopRes w) (uploadOutcome w)
    else startRecording (gpsAvailable w) (startDuring w) (startAck w).

(** Lines 163-174: one option per element of [cameras]; pressing it selects
    that element.  The options are those of the list as it is now. *)
Definition pressCameraOption (i : nat) : Comp unit :=
  l <- gets cameras;;
  match nth_error l i with
  | Some camera => setSelectedCamera (Some camera)
  | None => ret tt
  end.

Inductive Event : Type :=
| Mount (cameraPermission : string)
        (builtin : Outcome (list BuiltinDevice)) (usb : Outcome (list UsbDevice))
| PressScan (builtin : Outcome (list BuiltinDevice)) (usb : Outcome (list UsbDevice))
| PressCameraOption (i : nat)
| PressRecord (w : World)
| Callback (b : Background)
| CapReached.

(** Nobody catches what a handler throws: it surfaces as an unhandled
    rejection. *)
Definition handle (m : Comp unit) (s : State) : State :=
  match m s with
  | (Normal _, s') => s'
  | (Throw e, s') => with_trace (trace s' ++ [UnhandledRejection e]) s'
  end.

(** The controls exist only once permission is known to be granted (lines
    136-142 return early otherwise). *)
Definition step (ev : Event) (s : State) : State :=
  match ev with
  | Mount p builtin usb =>
      handle (scanForCameras builtin usb) (handle (checkPermissions p) s)
  | PressScan builtin usb =>
      if cameraMounted s then handle (scanForCameras builtin usb) s else s
  | PressCameraOption i =>
      if cameraMounted s then handle (pressCameraOption i) s else s
  | PressRecord w =>
      if cameraMounted s then handle (pressRecord w) s else s
  | Callback b => background b s
  | CapReached => capReached s
  end.

Definition run (evs : list Event) (s : State) : State :=
  fold_left (fun acc ev => step ev acc) evs s.

(** ** Sample data used by the examples *)

Definition backCamera : BuiltinDevice := mkBuiltinDevice "0" "Back Camera".
Definition frontCamera : BuiltinDevice := mkBuiltinDevice "1" "Front Camera".
Definition webcam : UsbDevice := mkUsbDevice 1133 6 "HD Webcam".
Definition keyboard : UsbDevice := mkUsbDevice 1452 3 "Keyboard".
Definition clip : Artifact := mkArtifact "file:///clip.mp4" 4 1048576.
Definition fixAt (t : Z) : GpsLogEntry := mkGpsLogEntry t 12971600 77594600 (Some 5).

(** The component mounted with permission granted and one built-in camera
    found. *)
Definition readyState : State :=
  step (Mount "authorized" (Resolved [backCamera]) (Resolved [])) initialState.

Definition quietWorld : World :=
  mkWorld true [] (Resolved tt) [] (Resolved clip) Success.

(** [readyState] after one press of the record button, GPS and camera both
    starting. *)
Definition activeState : State := step (PressRecord quietWorld) readyState.

(** ** Predicates used in the statements *)

(** The previously selected device is gone: its id is that of no entry of
    the new list. *)
Definition selectionLost (s s' : State) : Prop :=
  match selectedCamera s with
  | Some c => ~ In (cam_id c) (map cam_id (cameras s'))
  | None => False
  end.

Definition isRejected {A} (p : Outcome A) : bool :=
  match p with
  | Rejected _ => true
  | Resolved _ => false
  end.

(** What no background callback changes. *)
Definition sameControl (s s' : State) : Prop :=
  cameras s' = cameras s
  /\ selectedCamera s' = selectedCamera s
  /\ hasPermission s' = hasPermission s
  /\ loading s' = loading s
  /\ camRecording s' = camRecording s
  /\ trace s' = trace s
  /\ isRecording (recording s') = isRecording (recording s)
  /\ timerRef (recording s') = timerRef (recording s)
  /\ gpsEnabled (gps s') = gpsEnabled (gps s)
  /\ hasGpsError (gps s') = hasGpsError (gps s)
  /\ gpsErrorMessage (gps s') = gpsErrorMessage (gps s).

(** The camera start fails: the ref is null, or the driver rejects. *)
Definition cameraStartFails (s : State) (ack : Outcome unit) : bool :=
  negb (cameraMounted s) || isRejected ack.

(** The camera stop fails: the ref is null, or the driver rejects. *)
Definition cameraStopFails (s : State) (res : Outcome Artifact) : bool :=
  negb (cameraMounted s) || isRejected res.

(** What one call of [startRecording] emits, in order. *)
Definition startEffects (s : State) (gpsAvailable : bool)
                        (ack : Outcome unit) : list Effect :=
  match selectedCamera s with
  | None => [Alert "Please select a camera"]
  | Some _ =>
      [GpsStartCalled gpsAvailable]
      ++ (if gpsAvailable then []
          else [ConsoleWarn "GPS tracking could not be started"])
      ++ [SetIsRecording true; TimerStarted]
      ++ (if cameraMounted s
          then [CameraStart recordOptions (negb (isRejected ack))] else [])
      ++ (if cameraStartFails s ack
          then [ConsoleError "Failed to start recording:";
                GpsStopCalled; SetIsRecording false; TimerStopped]
          else [])
  end.

(** The log the upload hook captures when [stopRecording] gets that far. *)
Definition stopLog (during : list Background) (s : State) : list GpsLogEntry :=
  let g := gps (afterCallbacks during s) in
  if gpsEnabled g then gpsLogRef g else [].

(** What one call of [stopRecording] emits, in order. *)
Definition stopEffects (s : State) (during : list Background)
    (res : Outcome Artifact) (outcome : UploadOutcome) : list Effect :=
  if cameraMounted s
  then match res with
       | Resolved data =>
           [CameraStop true; TimerStopped; GpsStopCalled;
            UploadSubmitted [data] (stopLog during s)
              (recordingTime (recording (afterCallbacks during s)))
              (hasGpsError (gps s));
            UploadSettled outcome; SetIsRecording false]
       | Rejected _ =>
           [CameraStop false; ConsoleError "Failed to stop recording:"]
       end
  else [ConsoleError "Failed to stop recording:"].

Definition isGpsStart (e : Effect) : bool :=
  match e with GpsStartCalled _ => true | _ => false end.

Definition isGpsStop (e : Effect) : bool :=
  match e with GpsStopCalled => true | _ => false end.

Definition isCameraStart (e : Effect) : bool :=
  match e with CameraStart _ _ => true | _ => false end.

Definition isCameraStarted (e : Effect) : bool :=
  match e with CameraStart _ true => true | _ => false end.

Definition isCameraStopped (e : Effect) : bool :=
  match e with CameraStop true => true | _ => false end.

Definition isUpload (e : Effect) : bool :=
  match e with UploadSubmitted _ _ _ _ => true | _ => false end.

(** Every effect of kind [isQ] in [l] comes after an effect of kind [isP]. *)
Definition everyPreceded (isP isQ : Effect -> bool) (l : list Effect) : Prop :=
  forall pre e post,
    l = (pre ++ e :: post)%list -> isQ e = true ->
    exists p, In p pre /\ isP p = true.

(** The same, as a check; [seen] tells whether an [isP] was met already. *)
Fixpoint precededBy (isP isQ : Effect -> bool) (seen : bool)
                    (l : list Effect) : bool :=
  match l with
  | [] => true
  | e :: rest =>
      (if isQ e then seen else true)
      && precededBy isP isQ (seen || isP e) rest
  end.

(** No effect of kind [isQ] occurs in [l]. *)
Definition noneOf (isQ : Effect -> bool) (l : list Effect) : Prop :=
  forall e, In e l -> isQ e = false.



(** ** Further parts of the render (lines 144-201) *)

(** [===] on two ids: a string and a number are never equal. *)
Definition jsId_eqb (a b : JsId) : bool :=
  match a, b with
  | IdStr x, IdStr y => String.eqb x y
  | IdNum x, IdNum y => x =? y
  | _, _ => false
  end.

(** Line 168: [selectedCamera?.id === camera.id], the condition under which
    an option carries the selected style. *)
Definition optionHighlighted (s : State) (camera : CameraEntry) : bool :=
  match selectedCamera s with
  | Some c => jsId_eqb (cam_id c) (cam_id camera)
  | None => false
  end.

(** Line 161: the list of options is rendered only when
    [cameras.length > 0]. *)
Definition cameraSelectShown (s : State) : bool :=
  0 <? Z.of_nat (List.length (cameras s)).

(** ** Invariants of the reachable states *)


Definition isMount (ev : Event) : bool :=
  match ev with Mount _ _ _ => true | _ => false end.


Definition isTimerStop (e : Effect) : bool :=
  match e with TimerStopped => true | _ => false end.

(** What only the callbacks and the hooks touch: everything a handler of the
    recording leaves alone. *)
Definition sameDevices (s s' : State) : Prop :=
  cameras s' = cameras s
  /\ selectedCamera s' = selectedCamera s
  /\ hasPermission s' = hasPermission s
  /\ loading s' = loading s.

(** ** The elapsed-time text (line 190) *)

(** [n.toString()] of an integer that a JavaScript number holds exactly and
    prints in full: decimal digits, a leading [-] when negative.  It is used
    below for counters under [secondsBound] only. *)
Definition toString (n : Z) : string :=
  DecimalString.NilEmpty.string_of_int (Z.to_int n).

(** The filler of [padStart]: [pad] repeated and cut to [n] characters;
    [cur] is what is left of the copy being written. *)
Fixpoint filler (pad cur : string) (n : nat) : string :=
  match n with
  | O => EmptyString
  | S n' =>
      match cur with
      | String c rest => String c (filler pad rest n')
      | EmptyString =>
          match pad with
          | String c rest => String c (filler pad rest n')
          | EmptyString => EmptyString
          end
      end
  end.

(** [str.padStart(target, pad)]: [str] itself when it is long enough or
    [pad] is empty, else [str] behind as much filler as is missing. *)
Definition padStart (target : nat) (pad str : string) : string :=
  if (target <=? String.length str)%nat then str
  else match pad with
       | EmptyString => str
       | _ => filler pad pad (target - String.length str) ++ str
       end.

(** The range of counters the text is studied on: whole seconds below
    2^32, where every number involved is an exact double, the division by
    60 rounds to below the next integer, and no exponent form is printed. *)
Definition secondsBound : Z := 4294967296.

(** Line 190: [Math.floor(recordingTime / 60)], [":"], and
    [(recordingTime % 60).toString().padStart(2, '0')]; [%] takes the sign
    of the dividend. *)
Definition formatElapsed (recordingTime : Z) : string :=
  toString (recordingTime / 60) ++ ":"
  ++ padStart 2 "0" (toString (Z.rem recordingTime 60)).

(** Lines 188-192: the text is rendered only while recording. *)
Definition timerText (s : State) : option string :=
  if isRecording (recording s)
  then Some (formatElapsed (recordingTime (recording s)))
  else None.

(** Reading a decimal numeral back. *)
Definition readNumber (str : string) : option Z :=
  option_map Z.of_int (DecimalString.NilEmpty.int_of_string str).

Definition isAlert (e : Effect) : bool :=
  match e with Alert _ => true | _ => false end.



(** ** Device scan *)

Lemma scan_resolved (devices : list BuiltinDevice) (usbDevices : list UsbDevice)
                    (s : State) :
  scanForCameras (Resolved devices) (Resolved usbDevices) s =
  (Normal tt,
   match allCameras devices usbDevices with
   | [] => with_cameras [] s
   | c :: rest => with_selectedCamera (Some c) (with_cameras (c :: rest) s)
   end).
Proof.
  unfold scanForCameras, bind, await, ret, setCameras, setSelectedCamera, modify.
  destruct (allCameras devices usbDevices) as [|c rest]; reflexivity.
Qed.

Lemma usb_entries_from_imaging (devices : list BuiltinDevice)
    (usbDevices : list UsbDevice) (c : CameraEntry) :
  In c (allCameras devices usbDevices) ->
  cam_type c = Usb ->
  exists d, In d usbDevices /\ getDeviceClass d = 6 /\ c = usbEntry d.
Proof.
  unfold allCameras, usbCameras. intros Hin Hty.
  apply in_app_or in Hin. destruct Hin as [Hb | Hu].
  - apply in_map_iff in Hb. destruct Hb as [b [Hb _]].
    subst c. discriminate Hty.
  - apply in_map_iff in Hu. destruct Hu as [d [Hd Hf]].
    apply filter_In in Hf. destruct Hf as [Hd_in Hcls].
    exists d. repeat split; auto.
    unfold isImaging in Hcls. now apply Z.eqb_eq in Hcls.
Qed.

Lemma scan_cameras (devices : list BuiltinDevice) (usbDevices : list UsbDevice)
                   (s : State) :
  cameras (exec (scanForCameras (Resolved devices) (Resolved usbDevices)) s)
  = allCameras devices usbDevices.
Proof.
  unfold exec. rewrite scan_resolved.
  destruct (allCameras devices usbDevices); reflexivity.
Qed.

(** C3. After a device scan, every entry of type ['usb'] in the installed
    camera list is the entry of a USB device whose class code is 6: a USB
    device of any other class is filtered out before the lists are merged. *)
Theorem scan_excludes_non_imaging_usb (s : State) (devices : list BuiltinDevice)
    (usbDevices : list UsbDevice) (c : CameraEntry) :
  In c (cameras (exec (scanForCameras (Resolved devices) (Resolved usbDevices)) s)) ->
  cam_type c = Usb ->
  exists d, In d usbDevices /\ getDeviceClass d = 6 /\ c = usbEntry d.
Proof.
  rewrite scan_cameras. apply usb_entries_from_imaging.
Qed.

Lemma scan_excludes_non_imaging_usb_witness :
  cameras (exec (scanForCameras (Resolved [backCamera])
                                (Resolved [keyboard; webcam])) initialState)
  = [builtinEntry backCamera; usbEntry webcam] /\
  exists d, In d [keyboard; webcam] /\ getDeviceClass d = 6 /\
            usbEntry webcam = usbEntry d.
Proof.
  split; [reflexivity|].
  apply (scan_excludes_non_imaging_usb initialState [backCamera]
           [keyboard; webcam] (usbEntry webcam)).
  - simpl. right. left. reflexivity.
  - reflexivity.
Defined.


(** [readyState] has selected the back camera. *)
Example readyState_selection :
  selectedCamera readyState = Some (builtinEntry backCamera)
  /\ cameras readyState = [builtinEntry backCamera]
  /\ hasPermission readyState = Some true.
Proof. repeat split. Qed.

(** C4, as the spec words it, fails: rescanning [readyState] (back camera
    selected) when only the front camera is found loses the selected id, yet
    the selection is not cleared: it silently becomes the front camera, and
    nothing is emitted. *)
Lemma scan_selection_loss_not_reported :
  let s' := step (PressScan (Resolved [frontCamera]) (Resolved [])) readyState in
  selectionLost readyState s'
  /\ selectedCamera s' = Some (builtinEntry frontCamera)
  /\ selectedCamera s' <> None
  /\ trace s' = trace readyState.
Proof.
  cbv zeta. repeat split.
  - simpl. intros [H | []]. discriminate H.
  - discriminate.
Qed.

(** C4, amended. A scan whose two enumerations succeed sets the selection to
    the first entry of the new list when that list is non-empty, whatever
    was selected before, and leaves the selection as it was when the list is
    empty; it emits nothing (no notification of any kind). *)
Theorem scan_selects_first_or_keeps (s : State) (devices : list BuiltinDevice)
    (usbDevices : list UsbDevice) :
  let s' := exec (scanForCameras (Resolved devices) (Resolved usbDevices)) s in
  selectedCamera s' =
    match allCameras devices usbDevices with
    | [] => selectedCamera s
    | c :: _ => Some c
    end
  /\ trace s' = trace s
  /\ result (scanForCameras (Resolved devices) (Resolved usbDevices)) s = Normal tt.
Proof.
  unfold exec, result. rewrite scan_resolved.
  destruct (allCameras devices usbDevices); repeat split.
Qed.


(** C5. When either enumeration is rejected the scan installs nothing: the
    handler either throws (camera enumeration) or leaves an unhandled
    rejection behind (USB enumeration), and in both cases the device list and
    the selection, indeed the whole state apart from the report of the
    rejection, are as before. *)
Theorem failed_scan_keeps_device_list (s : State)
    (builtin : Outcome (list BuiltinDevice)) (usb : Outcome (list UsbDevice)) :
  isRejected builtin = true \/ isRejected usb = true ->
  cameras (exec (scanForCameras builtin usb) s) = cameras s
  /\ selectedCamera (exec (scanForCameras builtin usb) s) = selectedCamera s
  /\ exists e,
       scanForCameras builtin usb s = (Throw e, s)
       \/ scanForCameras builtin usb s
          = (Normal tt, with_trace (trace s ++ [UnhandledRejection e]) s).
Proof.
  intros H. unfold exec.
  destruct builtin as [devices | e].
  - destruct usb as [usbDevices | e].
    + destruct H as [H | H]; discriminate H.
    + repeat split. exists e. right. reflexivity.
  - repeat split. exists e. left. reflexivity.
Qed.

Lemma failed_scan_keeps_device_list_witness :
  cameras (exec (scanForCameras (Resolved [frontCamera]) (Rejected "usb bus down"))
                readyState)
  = [builtinEntry backCamera].
Proof.
  pose proof (failed_scan_keeps_device_list readyState
                (Resolved [frontCamera]) (Rejected "usb bus down")) as H.
  destruct H as [Hc _].
  - right. reflexivity.
  - rewrite Hc. reflexivity.
Defined.

(** C10. When the merged result of a scan is empty, the device list becomes
    empty and the selection is not touched, so a camera selected before the
    scan stays selected although the list no longer contains it. *)
Theorem empty_scan_keeps_selection (s : State) (devices : list BuiltinDevice)
    (usbDevices : list UsbDevice) :
  allCameras devices usbDevices = [] ->
  let s' := exec (scanForCameras (Resolved devices) (Resolved usbDevices)) s in
  cameras s' = []
  /\ selectedCamera s' = selectedCamera s
  /\ forall c, selectedCamera s = Some c ->
               selectedCamera s' = Some c /\ ~ In c (cameras s').
Proof.
  intros Hempty. unfold exec. rewrite scan_resolved, Hempty. simpl.
  repeat split; auto.
Qed.

Lemma empty_scan_keeps_selection_witness :
  let s' := exec (scanForCameras (Resolved []) (Resolved [keyboard])) readyState in
  cameras s' = []
  /\ selectedCamera s' = Some (builtinEntry backCamera).
Proof.
  destruct (empty_scan_keeps_selection readyState [] [keyboard]) as [Hc [Hs _]].
  - reflexivity.
  - cbv zeta. split; [exact Hc | rewrite Hs; reflexivity].
Defined.

(** ** Callbacks leave the control state alone *)


Lemma sameControl_refl (s : State) : sameControl s s.
Proof. repeat split. Qed.

Lemma sameControl_trans (s1 s2 s3 : State) :
  sameControl s1 s2 -> sameControl s2 s3 -> sameControl s1 s3.
Proof.
  unfold sameControl. intros H12 H23.
  repeat match goal with H : _ /\ _ |- _ => destruct H end.
  repeat split; congruence.
Qed.

Lemma background_sameControl (b : Background) (s : State) :
  sameControl s (background b s).
Proof.
  destruct b as [|e]; unfold background.
  - destruct (timerRef (recording s)) eqn:Ht; [|apply sameControl_refl].
    repeat split; simpl; auto.
  - destruct (gpsEnabled (gps s)) eqn:Hg; [|apply sameControl_refl].
    destruct (last_timestamp (gpsLogRef (gps s))) as [t|].
    + destruct (timestamp e <? t); [apply sameControl_refl|].
      repeat split; simpl; auto.
    + repeat split; simpl; auto.
Qed.

Lemma meanwhile_sameControl (bs : list Background) (s : State) :
  sameControl s (afterCallbacks bs s).
Proof.
  unfold afterCallbacks. revert s. induction bs as [|b bs IH]; intros s; simpl.
  - apply sameControl_refl.
  - eapply sameControl_trans; [apply background_sameControl | apply IH].
Qed.

(** With the sampler stopped, fixes are not recorded. *)
Lemma background_gps_stopped (b : Background) (s : State) :
  gpsEnabled (gps s) = false -> gps (background b s) = gps s.
Proof.
  intros Hoff. destruct b as [|e]; unfold background.
  - destruct (timerRef (recording s)); reflexivity.
  - rewrite Hoff. reflexivity.
Qed.

Lemma meanwhile_gps_stopped (bs : list Background) (s : State) :
  gpsEnabled (gps s) = false ->
  gps (afterCallbacks bs s) = gps s.
Proof.
  unfold afterCallbacks. revert s. induction bs as [|b bs IH]; intros s Hoff; simpl.
  - reflexivity.
  - rewrite IH; rewrite background_gps_stopped; auto.
Qed.

(** ** Starting a recording *)



Ltac unfold_handlers H :=
  unfold startRecording, stopRecording, uploadRecording, startGpsTracking,
    stopGpsTracking, setIsRecording, setRecordingTime, startTimer, stopTimer,
    getRecordingDuration, camera_startRecording, camera_stopRecording,
    try_catch, emit, modify, bind, gets, ret, await, throw, meanwhile,
    cameraMounted in H;
  cbn in H.

(** Replace the state reached through the callbacks of an [await] by a
    variable of which only the control part is known. *)
Ltac settle_meanwhile H :=
  match type of H with
  | context [afterCallbacks ?bs ?X] =>
      let Hs := fresh "Hsame" in
      let sb := fresh "sb" in
      let Heq := fresh "Hsb" in
      pose proof (meanwhile_sameControl bs X) as Hs;
      remember (afterCallbacks bs X) as sb eqn:Heq;
      unfold sameControl in Hs; cbn in Hs;
      destruct Hs as (?&?&?&?&?&?&?&?&?&?&?)
  end.

Ltac norm_trace := cbn; repeat rewrite <- app_assoc; cbn; try reflexivity.

Ltac name_outcome s' H :=
  intros s'; assert (H : s' = s') by reflexivity;
  unfold s' at 2 in H; clearbody s'.



(** ** What the handlers emit *)

Lemma background_with_trace (t : list Effect) (b : Background) (s : State) :
  background b (with_trace t s) = with_trace t (background b s).
Proof.
  destruct b as [|e]; unfold background; cbn.
  - destruct (timerRef (recording s)); reflexivity.
  - destruct (gpsEnabled (gps s)); [|reflexivity].
    destruct (last_timestamp (gpsLogRef (gps s))) as [t0|]; [|reflexivity].
    destruct (timestamp e <? t0); reflexivity.
Qed.

Lemma afterCallbacks_with_trace (t : list Effect) (bs : list Background)
                                (s : State) :
  afterCallbacks bs (with_trace t s) = with_trace t (afterCallbacks bs s).
Proof.
  unfold afterCallbacks. revert s.
  induction bs as [|b bs IH]; intros s; simpl; [reflexivity|].
  rewrite background_with_trace. apply IH.
Qed.

Lemma startRecording_none (s : State) (g : bool) (during : list Background)
                          (ack : Outcome unit) :
  selectedCamera s = None ->
  startRecording g during ack s
  = (Normal tt, with_trace (trace s ++ [Alert "Please select a camera"]) s).
Proof.
  intros Hsel. unfold startRecording, bind, gets, emit, modify.
  rewrite Hsel. reflexivity.
Qed.

Lemma startRecording_trace (s : State) (g : bool) (during : list Background)
                           (ack : Outcome unit) :
  trace (exec (startRecording g during ack) s)
  = (trace s ++ startEffects s g ack)%list.
Proof.
  unfold startEffects, cameraStartFails.
  remember (exec (startRecording g during ack) s) as s' eqn:Hs'.
  unfold exec in Hs'. unfold_handlers Hs'. unfold cameraMounted.
  destruct (selectedCamera s) as [c|]; [|subst s'; reflexivity].
  destruct (hasPermission s) as [[|]|] eqn:Hm; destruct g;
    destruct ack as [[]|e];
    repeat (cbn in Hs'; try rewrite Hm in Hs');
    try solve [subst s'; norm_trace];
    settle_meanwhile Hs';
    repeat match goal with
           | H : gpsEnabled (gps _) = _ |- _ => rewrite H in Hs'; clear H
           end;
    cbn in Hs'; subst s'; cbn;
    match goal with H : trace _ = _ |- _ => rewrite H end;
    norm_trace.
Qed.

Lemma afterCallbacks_control (bs : list Background) (s : State) :
  sameControl s (afterCallbacks bs s).
Proof. apply meanwhile_sameControl. Qed.

Lemma stopRecording_trace (s : State) (during : list Background)
    (res : Outcome Artifact) (outcome : UploadOutcome) :
  trace (exec (stopRecording during res outcome) s)
  = (trace s ++ stopEffects s during res outcome)%list.
Proof.
  unfold stopEffects, stopLog.
  remember (exec (stopRecording during res outcome) s) as s' eqn:Hs'.
  unfold exec in Hs'. unfold_handlers Hs'. unfold cameraMounted.
  destruct (afterCallbacks_control during s) as (_&_&_&_&_&Htr&_&_&Hen&Herr&_).
  destruct (hasPermission s) as [[|]|] eqn:Hm;
    destruct res as [data|e];
    repeat (cbn in Hs'; try rewrite Hm in Hs');
    try solve [subst s'; norm_trace];
    rewrite afterCallbacks_with_trace in Hs'; cbn in Hs'.
  - destruct (gpsEnabled (gps (afterCallbacks during s))) eqn:Hg;
      cbn in Hs'; subst s'; cbn; rewrite ?Herr; norm_trace.
  - subst s'. norm_trace.
Qed.

Lemma startRecording_returns (s : State) (g : bool) (during : list Background)
                             (ack : Outcome unit) :
  result (startRecording g during ack) s = Normal tt.
Proof.
  remember (result (startRecording g during ack) s) as r eqn:Hr.
  unfold result in Hr. unfold_handlers Hr.
  destruct (selectedCamera s) as [c|]; [|subst r; reflexivity].
  destruct (hasPermission s) as [[|]|] eqn:Hm; destruct g;
    destruct ack as [[]|e];
    repeat (cbn in Hr; try rewrite Hm in Hr);
    try solve [subst r; reflexivity];
    match type of Hr with
    | context [gpsEnabled ?g] => destruct (gpsEnabled g)
    end; subst r; reflexivity.
Qed.

Lemma stopRecording_returns (s : State) (during : list Background)
    (res : Outcome Artifact) (outcome : UploadOutcome) :
  result (stopRecording during res outcome) s = Normal tt.
Proof.
  remember (result (stopRecording during res outcome) s) as r eqn:Hr.
  unfold result in Hr. unfold_handlers Hr.
  destruct (hasPermission s) as [[|]|] eqn:Hm; destruct res as [data|e];
    repeat (cbn in Hr; try rewrite Hm in Hr);
    try solve [subst r; reflexivity];
    match type of Hr with
    | context [gpsEnabled ?g] => destruct (gpsEnabled g)
    end; subst r; reflexivity.
Qed.




Lemma pressRecord_unfold (w : World) (s : State) :
  pressRecord w s =
  if recordButtonDisabled s then (Normal tt, s)
  else if isRecording (recording s)
       then stopRecording (stopDuring w) (stopRes w) (uploadOutcome w) s
       else startRecording (gpsAvailable w) (startDuring w) (startAck w) s.
Proof.
  unfold pressRecord, bind, gets, ret.
  destruct (recordButtonDisabled s); [reflexivity|].
  destruct (isRecording (recording s)); reflexivity.
Qed.


Lemma precededBy_sound (isP isQ : Effect -> bool) (l : list Effect) :
  forall seen,
    precededBy isP isQ seen l = true ->
    forall pre e post,
      l = (pre ++ e :: post)%list -> isQ e = true ->
      seen = true \/ exists p, In p pre /\ isP p = true.
Proof.
  induction l as [|a l IH]; intros seen Hchk pre e post Heq Hq.
  - destruct pre; discriminate Heq.
  - simpl in Hchk. apply andb_true_iff in Hchk. destruct Hchk as [Hhd Htl].
    destruct pre as [|a' pre]; simpl in Heq; inversion Heq; subst.
    + rewrite Hq in Hhd. now left.
    + destruct (IH _ Htl pre e post eq_refl Hq) as [Hseen | [p [Hin Hp]]].
      * apply orb_true_iff in Hseen. destruct Hseen as [Hseen | Hp].
        -- now left.
        -- right. exists a'. split; [now left | assumption].
      * right. exists p. split; [now right | assumption].
Qed.

Lemma precededBy_everyPreceded (isP isQ : Effect -> bool) (l : list Effect) :
  precededBy isP isQ false l = true -> everyPreceded isP isQ l.
Proof.
  intros Hchk pre e post Heq Hq.
  destruct (precededBy_sound isP isQ l false Hchk pre e post Heq Hq) as [H|H].
  - discriminate H.
  - exact H.
Qed.




(** ** Stopping a recording *)

Lemma stopRecording_resolved_state (s : State) (during : list Background)
    (data : Artifact) (outcome : UploadOutcome) :
  cameraMounted s = true ->
  let s' := exec (stopRecording during (Resolved data) outcome) s in
  isRecording (recording s') = false
  /\ recordingTime (recording s') = 0
  /\ timerRef (recording s') = false
  /\ gpsEnabled (gps s') = false
  /\ camRecording s' = false.
Proof.
  intros Hm. name_outcome s' Hs'.
  unfold exec in Hs'. unfold_handlers Hs'. unfold cameraMounted in Hm.
  destruct (hasPermission s) as [[|]|]; try discriminate Hm.
  cbn in Hs'. rewrite afterCallbacks_with_trace in Hs'. cbn in Hs'.
  destruct (gpsEnabled (gps (afterCallbacks during s))) eqn:Hg;
    cbn in Hs'; subst s'; cbn; repeat split; auto.
Qed.

Lemma stopRecording_failed_state (s : State) (during : list Background)
    (res : Outcome Artifact) (outcome : UploadOutcome) :
  cameraStopFails s res = true ->
  exec (stopRecording during res outcome) s
  = with_trace (trace s ++ stopEffects s during res outcome)
               (if cameraMounted s then afterCallbacks during s else s).
Proof.
  intros Hfail. unfold cameraStopFails in Hfail.
  unfold stopEffects.
  remember (exec (stopRecording during res outcome) s) as s' eqn:Hs'.
  unfold exec in Hs'. unfold_handlers Hs'. unfold cameraMounted in *.
  destruct (hasPermission s) as [[|]|] eqn:Hm;
    repeat (cbn in Hs'; try rewrite Hm in Hs');
    try solve [subst s'; norm_trace].
  destruct res as [data|e]; [discriminate Hfail|].
  cbn in Hs'. rewrite afterCallbacks_with_trace in Hs'. cbn in Hs'.
  subst s'. unfold with_trace. cbn. f_equal. norm_trace.
Qed.

(** ** Claims about start and stop *)

(** C1, as the spec words it, fails: [startRecording] looks at
    [selectedCamera] only.  Called on [activeState], where a recording is in
    progress, it is not rejected: with the camera refusing a second start the
    catch block stops the running session's GPS sampling and timer and sets
    [isRecording] to false; with the camera accepting, GPS, timer and camera
    are all started again. *)
Lemma start_while_recording_not_rejected :
  selectedCamera activeState <> None
  /\ isRecording (recording activeState) = true
  /\ timerRef (recording activeState) = true
  /\ gpsEnabled (gps activeState) = true
  /\ (let s' := exec (startRecording true [] (Rejected "already recording"))
                     activeState in
      isRecording (recording s') = false
      /\ timerRef (recording s') = false
      /\ gpsEnabled (gps s') = false
      /\ trace s' = (trace activeState ++
           [GpsStartCalled true; SetIsRecording true; TimerStarted;
            CameraStart recordOptions false;
            ConsoleError "Failed to start recording:";
            GpsStopCalled; SetIsRecording false; TimerStopped])%list)
  /\ (let s' := exec (startRecording true [] (Resolved tt)) activeState in
      trace s' = (trace activeState ++
           [GpsStartCalled true; SetIsRecording true; TimerStarted;
            CameraStart recordOptions true])%list).
Proof.
  split; [discriminate|]. repeat split.
Qed.

(** C1, amended. With no camera selected [startRecording] is rejected: it
    shows the alert and changes nothing else.  It makes no check of
    [isRecording]; that a recording is in progress is handled by the record
    button, which ignores the press when disabled (no camera selected, or
    loading) and otherwise calls [stopRecording], never [startRecording],
    whenever [isRecording] is true. *)
Theorem start_rejected_without_camera (s : State) (g : bool)
    (during : list Background) (ack : Outcome unit) (w : World) :
  selectedCamera s = None \/ isRecording (recording s) = true ->
  (selectedCamera s = None ->
     startRecording g during ack s
     = (Normal tt, with_trace (trace s ++ [Alert "Please select a camera"]) s))
  /\ pressRecord w s
     = (if recordButtonDisabled s then (Normal tt, s)
        else stopRecording (stopDuring w) (stopRes w) (uploadOutcome w) s).
Proof.
  intros Hcase. split.
  - apply startRecording_none.
  - rewrite pressRecord_unfold.
    destruct (recordButtonDisabled s) eqn:Hdis; [reflexivity|].
    destruct Hcase as [Hnone | Hrec].
    + unfold recordButtonDisabled in Hdis. rewrite Hnone in Hdis.
      rewrite orb_true_r in Hdis. discriminate Hdis.
    + rewrite Hrec. reflexivity.
Qed.

Lemma start_rejected_without_camera_witness :
  let s := step (Mount "authorized" (Resolved []) (Resolved [keyboard]))
                initialState in
  startRecording true [] (Resolved tt) s
  = (Normal tt, with_trace [Alert "Please select a camera"] s)
  /\ pressRecord quietWorld s = (Normal tt, s).
Proof.
  destruct (start_rejected_without_camera
              (step (Mount "authorized" (Resolved []) (Resolved [keyboard]))
                    initialState)
              true [] (Resolved tt) quietWorld) as [Hstart Hpress].
  - left. reflexivity.
  - cbv zeta. split.
    + rewrite Hstart; reflexivity.
    + rewrite Hpress. reflexivity.
Defined.

(** C7, as the spec words it, fails: [stopRecording] has no guard on the
    session state.  Called on the idle [readyState] with a camera that
    answers the stop request, it stops the timer and submits an upload; and
    it returns the same plain value as any other call, not a signal. *)
Lemma stop_while_idle_uploads :
  isRecording (recording readyState) = false
  /\ trace readyState = []
  /\ trace (exec (stopRecording [] (Resolved clip) Success) readyState)
     = [CameraStop true; TimerStopped; GpsStopCalled;
        UploadSubmitted [clip] [] 0 false; UploadSettled Success;
        SetIsRecording false]
  /\ result (stopRecording [] (Resolved clip) Success) readyState
     = result (stopRecording [] (Resolved clip) Success) activeState.
Proof. repeat split. Qed.

(** C7, amended. [stopRecording] called while the session is idle always
    asks the camera to stop and returns normally, with no distinct signal.
    If that request fails (null ref, or the camera rejects, as when nothing
    is being recorded) the failure is caught and logged: the session stays
    idle, the timer, the sampler and the camera are as they were, and no
    upload is submitted.  If the request succeeds, the timer is stopped and
    the upload is submitted as for an active session.  The record button
    does not call [stopRecording] while idle. *)
Theorem idle_stop_has_no_guard (s : State) (during : list Background)
    (res : Outcome Artifact) (outcome : UploadOutcome) (w : World) :
  isRecording (recording s) = false ->
  let s' := exec (stopRecording during res outcome) s in
  result (stopRecording during res outcome) s = Normal tt
  /\ (cameraStopFails s res = true ->
        isRecording (recording s') = false
        /\ timerRef (recording s') = timerRef (recording s)
        /\ gpsEnabled (gps s') = gpsEnabled (gps s)
        /\ camRecording s' = camRecording s
        /\ trace s' = (trace s
             ++ (if cameraMounted s then [CameraStop false] else [])
             ++ [ConsoleError "Failed to stop recording:"])%list)
  /\ (forall data, cameraMounted s = true -> res = Resolved data ->
        trace s' = (trace s ++
          [CameraStop true; TimerStopped; GpsStopCalled;
           UploadSubmitted [data] (stopLog during s)
             (recordingTime (recording (afterCallbacks during s)))
             (hasGpsError (gps s));
           UploadSettled outcome; SetIsRecording false])%list)
  /\ pressRecord w s
     = (if recordButtonDisabled s then (Normal tt, s)
        else startRecording (gpsAvailable w) (startDuring w) (startAck w) s).
Proof.
  intros Hidle s'. subst s'. split; [apply stopRecording_returns|].
  split; [|split].
  - intros Hfail. rewrite (stopRecording_failed_state _ _ _ _ Hfail).
    destruct (afterCallbacks_control during s)
      as (_&_&_&_&Hcam&_&Hrec&Htim&Hgps&_).
    unfold stopEffects. unfold cameraStopFails in Hfail.
    destruct (cameraMounted s); cbn.
    + destruct res as [data|e]; [discriminate Hfail|].
      rewrite Hrec, Htim, Hgps, Hcam. repeat split; auto.
    + repeat split; auto.
  - intros data Hm Hres. subst res.
    rewrite stopRecording_trace. unfold stopEffects. rewrite Hm. reflexivity.
  - rewrite pressRecord_unfold, Hidle. reflexivity.
Qed.

Lemma idle_stop_has_no_guard_witness :
  let s' := exec (stopRecording [] (Rejected "not recording") Success) readyState in
  isRecording (recording s') = false
  /\ timerRef (recording s') = false
  /\ trace s' = [CameraStop false; ConsoleError "Failed to stop recording:"].
Proof.
  destruct (idle_stop_has_no_guard readyState [] (Rejected "not recording")
              Success quietWorld) as [_ [Hfail _]].
  - reflexivity.
  - destruct Hfail as (Hrec & Htim & _ & _ & Htr); [reflexivity|].
    cbv zeta. rewrite Hrec, Htim, Htr. repeat split.
Defined.

Lemma startRecording_without_gps_state (s : State) (c : CameraEntry)
    (during : list Background) :
  selectedCamera s = Some c ->
  cameraMounted s = true ->
  let s1 := exec (startRecording false during (Resolved tt)) s in
  isRecording (recording s1) = true
  /\ timerRef (recording s1) = true
  /\ camRecording s1 = true
  /\ gpsEnabled (gps s1) = false
  /\ hasGpsError (gps s1) = true
  /\ hasPermission s1 = hasPermission s.
Proof.
  intros Hsel Hm. name_outcome s1 Hs1.
  unfold exec in Hs1. unfold_handlers Hs1. rewrite Hsel in Hs1.
  unfold cameraMounted in Hm.
  destruct (hasPermission s) as [[|]|] eqn:Hp; try discriminate Hm.
  repeat (cbn in Hs1; try rewrite Hp in Hs1).
  settle_meanwhile Hs1. subst s1. cbn.
  repeat split; try assumption; try reflexivity; congruence.
Qed.

(** C8. When the position provider refuses to start, [startRecording] still
    runs to the end: it logs a warning, sets [isRecording], starts the timer
    and the camera, and returns normally; the sampler is left stopped with
    its error flag raised.  Whatever callbacks arrive afterwards, a
    [stopRecording] answered by the camera submits the artifact with an
    empty GPS log and the error flag, and the session is idle again. *)
Theorem recording_proceeds_without_gps (s : State) (c : CameraEntry)
    (during evs during2 : list Background) (data : Artifact)
    (outcome : UploadOutcome) :
  selectedCamera s = Some c ->
  cameraMounted s = true ->
  let s1 := exec (startRecording false during (Resolved tt)) s in
  let s1' := afterCallbacks evs s1 in
  let s2 := exec (stopRecording during2 (Resolved data) outcome) s1' in
  result (startRecording false during (Resolved tt)) s = Normal tt
  /\ isRecording (recording s1) = true
  /\ camRecording s1 = true
  /\ gpsEnabled (gps s1) = false
  /\ hasGpsError (gps s1) = true
  /\ trace s1 = (trace s ++
       [GpsStartCalled false;
        ConsoleWarn "GPS tracking could not be started";
        SetIsRecording true; TimerStarted;
        CameraStart recordOptions true])%list
  /\ isRecording (recording s2) = false
  /\ trace s2 = (trace s1 ++
       [CameraStop true; TimerStopped; GpsStopCalled;
        UploadSubmitted [data] []
          (recordingTime (recording (afterCallbacks during2 s1'))) true;
        UploadSettled outcome; SetIsRecording false])%list.
Proof.
  intros Hsel Hm s1 s1' s2.
  destruct (startRecording_without_gps_state s c during Hsel Hm)
    as (Hrec & Htim & Hcam & Hgps & Herr & Hperm).
  fold s1 in Hrec, Htim, Hcam, Hgps, Herr, Hperm.
  assert (Htr1 : trace s1 = (trace s ++
       [GpsStartCalled false;
        ConsoleWarn "GPS tracking could not be started";
        SetIsRecording true; TimerStarted;
        CameraStart recordOptions true])%list).
  { unfold s1. rewrite startRecording_trace.
    unfold startEffects, cameraStartFails. rewrite Hsel, Hm. reflexivity. }
  destruct (afterCallbacks_control evs s1)
    as (_&_&Hperm'&_&_&Htr'&_&_&Hgps'&Herr'&_).
  fold s1' in Hperm', Htr', Hgps', Herr'.
  assert (Hm' : cameraMounted s1' = true).
  { unfold cameraMounted in *. rewrite Hperm', Hperm. exact Hm. }
  repeat split; auto.
  - apply startRecording_returns.
  - apply (stopRecording_resolved_state s1' during2 data outcome Hm').
  - unfold s2. rewrite stopRecording_trace. unfold stopEffects, stopLog.
    rewrite Hm', Htr', Herr', Herr.
    destruct (afterCallbacks_control during2 s1') as (_&_&_&_&_&_&_&_&Hg2&_).
    rewrite Hg2, Hgps', Hgps. reflexivity.
Qed.

Lemma recording_proceeds_without_gps_witness :
  let s1 := exec (startRecording false [Tick] (Resolved tt)) readyState in
  let s2 := exec (stopRecording [] (Resolved clip) Success)
                 (afterCallbacks [GpsFix (fixAt 1); Tick; GpsFix (fixAt 2)] s1) in
  isRecording (recording s1) = true
  /\ hasGpsError (gps s1) = true
  /\ trace s2 =
     [GpsStartCalled false;
      ConsoleWarn "GPS tracking could not be started";
      SetIsRecording true; TimerStarted; CameraStart recordOptions true;
      CameraStop true; TimerStopped; GpsStopCalled;
      UploadSubmitted [clip] [] 2 true;
      UploadSettled Success; SetIsRecording false].
Proof.
  destruct (recording_proceeds_without_gps readyState (builtinEntry backCamera)
              [Tick] [GpsFix (fixAt 1); Tick; GpsFix (fixAt 2)] [] clip Success)
    as (_ & Hrec & _ & _ & Herr & Htr1 & _ & Htr2).
  - reflexivity.
  - reflexivity.
  - cbv zeta. rewrite Htr2, Htr1. repeat split; assumption.
Defined.

(** ** Ordering of GPS and camera *)

Lemma startEffects_gps_first (s : State) (g : bool) (ack : Outcome unit) :
  precededBy isGpsStart isCameraStart false (startEffects s g ack) = true.
Proof.
  unfold startEffects, cameraStartFails.
  destruct (selectedCamera s); destruct g; destruct (cameraMounted s);
    destruct (isRejected ack); reflexivity.
Qed.

Lemma startEffects_rollback_without_capture (s : State) (g : bool)
    (ack : Outcome unit) (e : Effect) :
  In e (startEffects s g ack) -> isGpsStop e = true ->
  noneOf isCameraStarted (startEffects s g ack).
Proof.
  unfold noneOf, startEffects, cameraStartFails. intros Hin Hstop e' Hin'.
  destruct (selectedCamera s); destruct g; destruct (cameraMounted s);
    destruct (isRejected ack); simpl in Hin, Hin';
    try (repeat (destruct Hin' as [Hin'|Hin']; [subst e'; reflexivity|]);
         now destruct Hin');
    repeat (destruct Hin as [Hin|Hin]; [subst e; discriminate Hstop|]);
    destruct Hin.
Qed.

Lemma stopEffects_camera_first (s : State) (during : list Background)
    (res : Outcome Artifact) (outcome : UploadOutcome) :
  precededBy isCameraStopped isGpsStop false (stopEffects s during res outcome)
  = true.
Proof.
  unfold stopEffects.
  destruct (cameraMounted s); destruct res; reflexivity.
Qed.

(** In what [startRecording] does, the call that starts GPS sampling
    comes before the call that starts the camera, and the sampler is stopped
    there only on the rollback path, where the camera never began recording.
    In what [stopRecording] does, the sampler is stopped only after the
    camera has acknowledged its stop. *)
Theorem gps_brackets_camera (s : State) (g : bool)
    (during during2 : list Background) (ack : Outcome unit)
    (res : Outcome Artifact) (outcome : UploadOutcome) :
  (trace (exec (startRecording g during ack) s)
     = (trace s ++ startEffects s g ack)%list
   /\ everyPreceded isGpsStart isCameraStart (startEffects s g ack)
   /\ ((exists e, In e (startEffects s g ack) /\ isGpsStop e = true) ->
       noneOf isCameraStarted (startEffects s g ack)))
  /\ (trace (exec (stopRecording during2 res outcome) s)
        = (trace s ++ stopEffects s during2 res outcome)%list
      /\ everyPreceded isCameraStopped isGpsStop
           (stopEffects s during2 res outcome)).
Proof.
  split; [split; [|split] | split].
  - apply startRecording_trace.
  - apply precededBy_everyPreceded, startEffects_gps_first.
  - intros [e [Hin Hstop]].
    exact (startEffects_rollback_without_capture s g ack e Hin Hstop).
  - apply stopRecording_trace.
  - apply precededBy_everyPreceded, stopEffects_camera_first.
Qed.

Lemma gps_brackets_camera_witness :
  trace (exec (stopRecording [] (Resolved clip) Success) activeState)
  = [GpsStartCalled true; SetIsRecording true; TimerStarted;
     CameraStart recordOptions true;
     CameraStop true; TimerStopped; GpsStopCalled;
     UploadSubmitted [clip] [] 0 false; UploadSettled Success;
     SetIsRecording false]
  /\ exists p, In p [CameraStop true; TimerStopped] /\ isCameraStopped p = true.
Proof.
  destruct (gps_brackets_camera activeState true [] [] (Resolved tt)
              (Resolved clip) Success) as [_ [Htr Hord]].
  split.
  - rewrite Htr. reflexivity.
  - apply (Hord [CameraStop true; TimerStopped] GpsStopCalled
             [UploadSubmitted [clip] [] 0 false; UploadSettled Success;
              SetIsRecording false]); reflexivity.
Defined.

(** ** The duration and size caps *)




(** ** More on the device scan *)

Lemma scan_selection (s : State) (devices : list BuiltinDevice)
                     (usbDevices : list UsbDevice) :
  selectedCamera (exec (scanForCameras (Resolved devices) (Resolved usbDevices)) s)
  = match allCameras devices usbDevices with
    | [] => selectedCamera s
    | c :: _ => Some c
    end.
Proof.
  unfold exec. rewrite scan_resolved.
  destruct (allCameras devices usbDevices); reflexivity.
Qed.

(** No camera is lost by a scan: every built-in camera and every USB device
    of class 6 has its entry in the installed list. *)
Theorem scan_lists_every_camera (s : State) (devices : list BuiltinDevice)
    (usbDevices : list UsbDevice) :
  let s' := exec (scanForCameras (Resolved devices) (Resolved usbDevices)) s in
  (forall b, In b devices -> In (builtinEntry b) (cameras s'))
  /\ (forall d, In d usbDevices -> getDeviceClass d = 6 ->
                In (usbEntry d) (cameras s'))
  /\ List.length (cameras s')
     = (List.length devices + List.length (usbCameras usbDevices))%nat.
Proof.
  cbv zeta. rewrite scan_cameras. unfold allCameras. repeat split.
  - intros b Hb. apply in_or_app. left. now apply in_map.
  - intros d Hd Hcls. apply in_or_app. right. apply in_map.
    unfold usbCameras. apply filter_In. split; [assumption|].
    unfold isImaging. now apply Z.eqb_eq.
  - rewrite length_app, !length_map. reflexivity.
Qed.

Lemma scan_lists_every_camera_witness :
  In (usbEntry webcam)
     (cameras (exec (scanForCameras (Resolved [backCamera])
                                    (Resolved [keyboard; webcam])) initialState)).
Proof.
  destruct (scan_lists_every_camera initialState [backCamera] [keyboard; webcam])
    as [_ [Husb _]].
  apply Husb.
  - simpl. right. left. reflexivity.
  - reflexivity.
Defined.

(** The camera a scan selects is the first built-in camera when the driver
    reports any; a USB camera is selected by a scan only when there is no
    built-in one, and then it is the first imaging device. *)
Theorem scan_prefers_builtin (s : State) (devices : list BuiltinDevice)
    (usbDevices : list UsbDevice) :
  selectedCamera (exec (scanForCameras (Resolved devices) (Resolved usbDevices)) s)
  = match devices, usbCameras usbDevices with
    | b :: _, _ => Some (builtinEntry b)
    | [], u :: _ => Some (usbEntry u)
    | [], [] => selectedCamera s
    end.
Proof.
  rewrite scan_selection. unfold allCameras.
  destruct devices as [|b rest]; simpl; [|reflexivity].
  destruct (usbCameras usbDevices); reflexivity.
Qed.

(** A scan replaces, it does not merge: after a scan that found at least one
    camera, nothing remains of what earlier scans installed or of an earlier
    choice of the user; the state is the one the last scan alone produces. *)
Theorem scan_overrides_earlier_scan (s : State)
    (devices1 devices2 : list BuiltinDevice)
    (usb1 usb2 : list UsbDevice) (i : nat) :
  allCameras devices2 usb2 <> [] ->
  exec (scanForCameras (Resolved devices2) (Resolved usb2))
       (exec (pressCameraOption i)
             (exec (scanForCameras (Resolved devices1) (Resolved usb1)) s))
  = exec (scanForCameras (Resolved devices2) (Resolved usb2)) s.
Proof.
  intros Hne. unfold exec at 1 4. rewrite !scan_resolved.
  destruct (allCameras devices2 usb2) as [|c rest]; [contradiction|].
  unfold exec at 2. rewrite scan_resolved.
  unfold exec, pressCameraOption, bind, gets, ret, setSelectedCamera, modify.
  destruct (allCameras devices1 usb1) as [|c1 rest1]; simpl.
  - destruct i; reflexivity.
  - destruct (nth_error (c1 :: rest1) i); reflexivity.
Qed.

Lemma scan_overrides_earlier_scan_witness :
  exec (scanForCameras (Resolved [frontCamera]) (Resolved [webcam]))
       (exec (pressCameraOption 1)
             (exec (scanForCameras (Resolved [backCamera]) (Resolved [webcam]))
                   initialState))
  = exec (scanForCameras (Resolved [frontCamera]) (Resolved [webcam])) initialState.
Proof.
  apply (scan_overrides_earlier_scan initialState [backCamera] [frontCamera]
           [webcam] [webcam] 1).
  discriminate.
Defined.

(** ** What the recording handlers leave alone *)

Lemma startRecording_sameDevices (s : State) (g : bool)
    (during : list Background) (ack : Outcome unit) :
  sameDevices s (exec (startRecording g during ack) s).
Proof.
  unfold sameDevices.
  remember (exec (startRecording g during ack) s) as s' eqn:Hs'.
  unfold exec in Hs'. unfold_handlers Hs'.
  destruct (selectedCamera s) as [c|] eqn:Hsel;
    [|subst s'; cbn; repeat split; auto].
  destruct (hasPermission s) as [[|]|] eqn:Hm; destruct g;
    destruct ack as [[]|e];
    repeat (cbn in Hs'; try rewrite Hm in Hs');
    try solve [subst s'; cbn; repeat split; auto];
    settle_meanwhile Hs';
    repeat match goal with
           | H : gpsEnabled (gps _) = _ |- _ => rewrite H in Hs'; clear H
           end;
    cbn in Hs'; subst s'; cbn; repeat split; congruence.
Qed.

Lemma stopRecording_sameDevices (s : State) (during : list Background)
    (res : Outcome Artifact) (outcome : UploadOutcome) :
  sameDevices s (exec (stopRecording during res outcome) s).
Proof.
  unfold sameDevices.
  remember (exec (stopRecording during res outcome) s) as s' eqn:Hs'.
  unfold exec in Hs'. unfold_handlers Hs'.
  destruct (afterCallbacks_control during s) as (Hc&Hsel&Hp&Hl&_).
  destruct (hasPermission s) as [[|]|] eqn:Hm;
    destruct res as [data|e];
    repeat (cbn in Hs'; try rewrite Hm in Hs');
    try solve [subst s'; cbn; repeat split; auto];
    rewrite afterCallbacks_with_trace in Hs'; cbn in Hs'.
  - destruct (gpsEnabled (gps (afterCallbacks during s)));
      cbn in Hs'; subst s'; cbn; repeat split; congruence.
  - subst s'; cbn; repeat split; congruence.
Qed.

(** Starting and stopping a recording never touch the device list, the
    selection or the permission, whatever the camera, the position provider
    and the upload answer. *)
Theorem recording_keeps_devices (s : State) (w : World) :
  let s1 := exec (startRecording (gpsAvailable w) (startDuring w) (startAck w)) s in
  let s2 := exec (stopRecording (stopDuring w) (stopRes w) (uploadOutcome w)) s in
  (cameras s1 = cameras s /\ selectedCamera s1 = selectedCamera s
   /\ hasPermission s1 = hasPermission s)
  /\ (cameras s2 = cameras s /\ selectedCamera s2 = selectedCamera s
      /\ hasPermission s2 = hasPermission s).
Proof.
  cbv zeta. split.
  - destruct (startRecording_sameDevices s (gpsAvailable w) (startDuring w)
                (startAck w)) as (Hc & Hsel & Hp & _).
    repeat split; assumption.
  - destruct (stopRecording_sameDevices s (stopDuring w) (stopRes w)
                (uploadOutcome w)) as (Hc & Hsel & Hp & _).
    repeat split; assumption.
Qed.

(** ** Choosing a camera *)

Lemma jsId_eqb_refl (a : JsId) : jsId_eqb a a = true.
Proof.
  destruct a as [x|n]; simpl.
  - apply String.eqb_refl.
  - apply Z.eqb_refl.
Qed.

(** Pressing the option of a listed camera changes the selection and nothing
    else: that camera is selected, its option is highlighted, and the record
    button is enabled unless an upload is loading. *)
Theorem option_press_selects (s : State) (i : nat) (c : CameraEntry) :
  nth_error (cameras s) i = Some c ->
  let s' := exec (pressCameraOption i) s in
  s' = with_selectedCamera (Some c) s
  /\ In c (cameras s')
  /\ optionHighlighted s' c = true
  /\ recordButtonDisabled s' = loading s.
Proof.
  intros Hnth.
  unfold exec, pressCameraOption, bind, gets, ret, setSelectedCamera, modify.
  rewrite Hnth. cbn. repeat split.
  - now apply nth_error_In with i.
  - unfold optionHighlighted. cbn. apply jsId_eqb_refl.
  - unfold recordButtonDisabled. cbn. apply orb_false_r.
Qed.

Lemma option_press_selects_witness :
  selectedCamera
    (exec (pressCameraOption 1)
          (exec (scanForCameras (Resolved [backCamera]) (Resolved [webcam]))
                initialState))
  = Some (usbEntry webcam).
Proof.
  destruct (option_press_selects
              (exec (scanForCameras (Resolved [backCamera]) (Resolved [webcam]))
                    initialState) 1 (usbEntry webcam)) as [Heq _].
  - reflexivity.
  - rewrite Heq. reflexivity.
Defined.


(** ** The two ways a start can end *)




(** ** A stop that fails *)

(** When the camera's stop fails (null ref or rejection), [stopRecording]
    only logs: the session keeps its [isRecording] value, the timer and the
    sampler keep running if they were, nothing is uploaded, and the record
    button of a recording session still leads to [stopRecording], so the
    stop can be tried again. *)
Theorem failed_stop_keeps_session (s : State) (during : list Background)
    (res : Outcome Artifact) (outcome : UploadOutcome) (w : World) :
  cameraStopFails s res = true ->
  let s' := exec (stopRecording during res outcome) s in
  s' = with_trace (trace s
                   ++ (if cameraMounted s then [CameraStop false] else [])
                   ++ [ConsoleError "Failed to stop recording:"])
                  (if cameraMounted s then afterCallbacks during s else s)
  /\ isRecording (recording s') = isRecording (recording s)
  /\ timerRef (recording s') = timerRef (recording s)
  /\ gpsEnabled (gps s') = gpsEnabled (gps s)
  /\ camRecording s' = camRecording s
  /\ (isRecording (recording s) = true -> recordButtonDisabled s = false ->
      pressRecord w s'
      = stopRecording (stopDuring w) (stopRes w) (uploadOutcome w) s').
Proof.
  intros Hfail s'. subst s'.
  rewrite (stopRecording_failed_state _ _ _ _ Hfail).
  destruct (afterCallbacks_control during s)
    as (Hc&Hsel&Hp&Hl&Hcam&_&Hrec&Htim&Hgps&_).
  set (mid := if cameraMounted s then afterCallbacks during s else s).
  assert (Hmid : selectedCamera mid = selectedCamera s
                 /\ loading mid = loading s
                 /\ isRecording (recording mid) = isRecording (recording s)
                 /\ timerRef (recording mid) = timerRef (recording s)
                 /\ gpsEnabled (gps mid) = gpsEnabled (gps s)
                 /\ camRecording mid = camRecording s).
  { unfold mid. destruct (cameraMounted s); repeat split; auto. }
  destruct Hmid as (Msel & Ml & Mrec & Mtim & Mgps & Mcam).
  assert (Heff : stopEffects s during res outcome
                 = ((if cameraMounted s then [CameraStop false] else [])
                    ++ [ConsoleError "Failed to stop recording:"])%list).
  { unfold stopEffects. unfold cameraStopFails in Hfail.
    destruct (cameraMounted s); [|reflexivity].
    destruct res as [d|e]; [discriminate Hfail | reflexivity]. }
  rewrite Heff. split; [reflexivity|].
  split; [exact Mrec|]. split; [exact Mtim|]. split; [exact Mgps|].
  split; [exact Mcam|].
  intros Hactive Hen. rewrite pressRecord_unfold.
  replace (recordButtonDisabled (with_trace _ mid)) with false.
  - replace (isRecording (recording (with_trace _ mid))) with true;
      [reflexivity|].
    cbn. now rewrite Mrec, Hactive.
  - unfold recordButtonDisabled in *. cbn. now rewrite Ml, Msel, Hen.
Qed.

Lemma failed_stop_keeps_session_witness :
  let s' := exec (stopRecording [Tick] (Rejected "camera error") Success)
                 activeState in
  isRecording (recording s') = true
  /\ timerRef (recording s') = true
  /\ gpsEnabled (gps s') = true.
Proof.
  destruct (failed_stop_keeps_session activeState [Tick]
              (Rejected "camera error") Success quietWorld)
    as (_ & Hrec & Htim & Hgps & _).
  - reflexivity.
  - cbv zeta. rewrite Hrec, Htim, Hgps. repeat split.
Defined.

(** ** What is uploaded, and when *)

Lemma stopEffects_order (s : State) (during : list Background)
    (res : Outcome Artifact) (outcome : UploadOutcome) :
  precededBy isTimerStop isUpload false (stopEffects s during res outcome) = true
  /\ precededBy isCameraStopped isTimerStop false
       (stopEffects s during res outcome) = true.
Proof.
  unfold stopEffects.
  destruct (cameraMounted s); destruct res; split; reflexivity.
Qed.

(** In [stopRecording] the timer is stopped only once the camera has
    answered the stop request, and the upload is submitted only after the
    timer was stopped.  What is uploaded is exactly the one artifact the
    camera returned, as a one-element list, together with the value of the
    elapsed-time counter at that moment. *)
Theorem upload_carries_camera_artifact (s : State) (during : list Background)
    (res : Outcome Artifact) (outcome : UploadOutcome) (effs : list Effect) :
  trace (exec (stopRecording during res outcome) s) = (trace s ++ effs)%list ->
  everyPreceded isCameraStopped isTimerStop effs
  /\ everyPreceded isTimerStop isUpload effs
  /\ (forall chunks log duration err,
        In (UploadSubmitted chunks log duration err) effs ->
        exists data,
          res = Resolved data /\ chunks = [data]
          /\ duration = recordingTime (recording (afterCallbacks during s))).
Proof.
  intros Htr. rewrite stopRecording_trace in Htr.
  apply app_inv_head in Htr. subst effs.
  destruct (stopEffects_order s during res outcome) as [Hup Htim].
  split; [now apply precededBy_everyPreceded|].
  split; [now apply precededBy_everyPreceded|].
  intros chunks log duration err Hin. unfold stopEffects in Hin.
  destruct (cameraMounted s); [destruct res as [data|e]|]; simpl in Hin;
    repeat (destruct Hin as [Hin|Hin]; [try discriminate Hin|]);
    try contradiction.
  inversion Hin; subst. exists data. repeat split.
Qed.

Lemma upload_carries_camera_artifact_witness :
  exists data,
    Resolved clip = Resolved data /\ [clip] = [data]
    /\ 1 = recordingTime (recording (afterCallbacks [Tick] activeState)).
Proof.
  destruct (upload_carries_camera_artifact activeState [Tick] (Resolved clip)
              Success
              [CameraStop true; TimerStopped; GpsStopCalled;
               UploadSubmitted [clip] [] 1 false; UploadSettled Success;
               SetIsRecording false]) as (_ & _ & Hup).
  - reflexivity.
  - apply (Hup [clip] [] 1 false).
    simpl. right. right. right. left. reflexivity.
Defined.

(** ** Failures that escape *)





(** ** Without permission *)

Lemma step_without_permission (ev : Event) (s : State) :
  cameraMounted s = false -> isMount ev = false ->
  cameraMounted (step ev s) = false
  /\ trace (step ev s) = trace s
  /\ sameDevices s (step ev s)
  /\ isRecording (recording (step ev s)) = isRecording (recording s)
  /\ timerRef (recording (step ev s)) = timerRef (recording s)
  /\ gpsEnabled (gps (step ev s)) = gpsEnabled (gps s).
Proof.
  intros Hm Hev.
  destruct ev as [p builtin usb | builtin usb | i | w | b | ];
    try discriminate Hev; simpl; rewrite ?Hm;
    try solve [repeat split; auto].
  destruct (background_sameControl b s)
    as (Hc&Hsel&Hp&Hl&_&Htr&Hrec&Htim&Hgps&_).
  unfold cameraMounted in *. rewrite Hp. repeat split; auto.
Qed.

(** While camera permission is not granted the controls are not rendered, so
    nothing the user does has any effect: short of a remount, no sequence of
    events emits anything (no alert, no camera, GPS or upload call), changes
    the device list or the selection, or starts a recording, the timer or
    the sampler. *)
Theorem no_permission_no_control (s : State) (evs : list Event) :
  cameraMounted s = false ->
  forallb (fun ev => negb (isMount ev)) evs = true ->
  let s' := run evs s in
  trace s' = trace s
  /\ cameras s' = cameras s
  /\ selectedCamera s' = selectedCamera s
  /\ isRecording (recording s') = isRecording (recording s)
  /\ timerRef (recording s') = timerRef (recording s)
  /\ gpsEnabled (gps s') = gpsEnabled (gps s).
Proof.
  unfold run. revert s.
  induction evs as [|ev evs IH]; intros s Hm Hevs; simpl.
  - repeat split.
  - simpl in Hevs. apply andb_true_iff in Hevs. destruct Hevs as [Hev Hevs].
    apply negb_true_iff in Hev.
    destruct (step_without_permission ev s Hm Hev)
      as (Hm' & Htr & (Hc & Hsel & _) & Hrec & Htim & Hgps).
    destruct (IH (step ev s) Hm' Hevs) as (Itr & Ic & Isel & Irec & Itim & Igps).
    repeat split; congruence.
Qed.

Lemma no_permission_no_control_witness :
  let s := step (Mount "denied" (Resolved [backCamera]) (Resolved [webcam]))
                initialState in
  let s' := run [PressRecord quietWorld; PressCameraOption 1;
                 PressScan (Resolved []) (Resolved []);
                 Callback Tick; PressRecord quietWorld] s in
  trace s' = []
  /\ isRecording (recording s') = false
  /\ selectedCamera s' = Some (builtinEntry backCamera).
Proof.
  destruct (no_permission_no_control
              (step (Mount "denied" (Resolved [backCamera]) (Resolved [webcam]))
                    initialState)
              [PressRecord quietWorld; PressCameraOption 1;
               PressScan (Resolved []) (Resolved []);
               Callback Tick; PressRecord quietWorld])
    as (Htr & _ & Hsel & Hrec & _).
  - reflexivity.
  - reflexivity.
  - cbv zeta. rewrite Htr, Hsel, Hrec. repeat split.
Defined.

(** ** An idle session holds nothing *)







(** ** The elapsed-time text *)

Lemma string_length_append (a b : string) :
  String.length (a ++ b) = (String.length a + String.length b)%nat.
Proof. induction a as [|c a IH]; simpl; [reflexivity | now rewrite IH]. Qed.

Lemma append_same_suffix_length (a1 a2 b1 b2 : string) :
  String.length b1 = String.length b2 ->
  (a1 ++ b1 = a2 ++ b2)%string -> a1 = a2 /\ b1 = b2.
Proof.
  revert a2. induction a1 as [|c1 a1 IH]; intros [|c2 a2] Hlen Heq; simpl in Heq.
  - now split.
  - subst b1. simpl in Hlen. rewrite string_length_append in Hlen. lia.
  - subst b2. simpl in Hlen. rewrite string_length_append in Hlen. lia.
  - injection Heq as Hc Hrest. destruct (IH a2 Hlen Hrest) as [Ha Hb].
    subst. now split.
Qed.

Lemma readNumber_toString (n : Z) : readNumber (toString n) = Some n.
Proof.
  unfold readNumber, toString.
  rewrite DecimalString.NilEmpty.isi. simpl. now rewrite DecimalZ.of_to.
Qed.

Lemma seconds_field (sec : Z) :
  0 <= sec < 60 ->
  String.length (padStart 2 "0" (toString sec)) = 2%nat
  /\ readNumber (padStart 2 "0" (toString sec)) = Some sec.
Proof.
  intros Hs. rewrite <- (Z2Nat.id sec) by lia.
  assert (Hn : (Z.to_nat sec < 60)%nat) by lia.
  generalize dependent (Z.to_nat sec). clear sec Hs. intros n Hn.
  do 60 (destruct n as [|n]; [split; reflexivity|]).
  lia.
Qed.

(** For a counter of whole seconds from 0 to below 2^32 the elapsed-time
    text is the minutes, a colon, and a seconds field of exactly two
    characters; read back as numbers the two fields are [t / 60] and
    [t mod 60], so the text shows seconds between 00 and 59 and loses
    nothing of the counter. *)
Theorem elapsed_text_reads_back (t : Z) :
  0 <= t < secondsBound ->
  exists mm ss,
    formatElapsed t = (mm ++ ":" ++ ss)%string
    /\ String.length ss = 2%nat
    /\ readNumber mm = Some (t / 60)
    /\ readNumber ss = Some (t mod 60)
    /\ t = 60 * (t / 60) + t mod 60.
Proof.
  intros Ht.
  exists (toString (t / 60)), (padStart 2 "0" (toString (Z.rem t 60))).
  assert (Hrem : Z.rem t 60 = t mod 60) by (apply Z.rem_mod_nonneg; lia).
  assert (Hrange : 0 <= t mod 60 < 60) by (apply Z.mod_pos_bound; lia).
  rewrite Hrem. destruct (seconds_field (t mod 60) Hrange) as [Hlen Hread].
  repeat split; auto.
  - unfold formatElapsed. now rewrite Hrem.
  - apply readNumber_toString.
  - apply Z.div_mod. lia.
Qed.

Lemma elapsed_text_reads_back_witness :
  formatElapsed 125 = "2:05"
  /\ exists mm ss,
       formatElapsed 125 = (mm ++ ":" ++ ss)%string
       /\ String.length ss = 2%nat
       /\ readNumber mm = Some (125 / 60)
       /\ readNumber ss = Some (125 mod 60)
       /\ 125 = 60 * (125 / 60) + 125 mod 60.
Proof.
  split; [reflexivity|].
  apply (elapsed_text_reads_back 125). unfold secondsBound. lia.
Defined.

Lemma formatElapsed_inj (t1 t2 : Z) :
  0 <= t1 -> 0 <= t2 ->
  formatElapsed t1 = formatElapsed t2 -> t1 = t2.
Proof.
  intros H1 H2 Heq. unfold formatElapsed in Heq.
  assert (Hr1 : 0 <= Z.rem t1 60 < 60).
  { rewrite Z.rem_mod_nonneg by lia. apply Z.mod_pos_bound. lia. }
  assert (Hr2 : 0 <= Z.rem t2 60 < 60).
  { rewrite Z.rem_mod_nonneg by lia. apply Z.mod_pos_bound. lia. }
  destruct (seconds_field _ Hr1) as [Hl1 Hd1].
  destruct (seconds_field _ Hr2) as [Hl2 Hd2].
  apply append_same_suffix_length in Heq.
  - destruct Heq as [Hmin Hsec].
    injection Hsec as Hsec. rewrite Hsec in Hd1. rewrite Hd1 in Hd2.
    injection Hd2 as Hd2.
    assert (Hq : t1 / 60 = t2 / 60).
    { apply (f_equal readNumber) in Hmin.
      rewrite !readNumber_toString in Hmin. now injection Hmin. }
    rewrite (Z.quot_rem' t1 60), (Z.quot_rem' t2 60).
    rewrite !Z.quot_div_nonneg by lia. now rewrite Hq, Hd2.
  - simpl. now rewrite Hl1, Hl2.
Qed.

(** Two different counters of whole seconds, both from 0 to below 2^32,
    never show the same text. *)
Theorem elapsed_text_distinguishes (t1 t2 : Z) :
  0 <= t1 < secondsBound -> 0 <= t2 < secondsBound -> t1 <> t2 ->
  formatElapsed t1 <> formatElapsed t2.
Proof.
  intros [H1 _] [H2 _] Hne Heq. apply Hne. now apply formatElapsed_inj.
Qed.

Lemma elapsed_text_distinguishes_witness :
  formatElapsed 59 = "0:59" /\ formatElapsed 60 = "1:00"
  /\ formatElapsed 59 <> formatElapsed 60.
Proof.
  split; [reflexivity|]. split; [reflexivity|].
  apply (elapsed_text_distinguishes 59 60); unfold secondsBound; lia.
Defined.

(** ** A whole session through the record button *)






(** ** Recording with a stale selection *)

(** After a scan that finds no camera, a camera selected earlier can still
    be recorded with: the list of options disappears, but the record button
    stays enabled, a press on it reaches [startRecording], and
    [startRecording] goes on to GPS, timer and camera without any alert. *)
Theorem stale_selection_still_records (s : State) (c : CameraEntry)
    (devices : list BuiltinDevice) (usbDevices : list UsbDevice) (w : World) :
  selectedCamera s = Some c ->
  loading s = false ->
  isRecording (recording s) = false ->
  allCameras devices usbDevices = [] ->
  let s' := exec (scanForCameras (Resolved devices) (Resolved usbDevices)) s in
  cameraSelectShown s' = false
  /\ recordButtonDisabled s' = false
  /\ pressRecord w s'
     = startRecording (gpsAvailable w) (startDuring w) (startAck w) s'
  /\ noneOf isAlert (startEffects s' (gpsAvailable w) (startAck w))
  /\ In (GpsStartCalled (gpsAvailable w))
        (startEffects s' (gpsAvailable w) (startAck w)).
Proof.
  intros Hsel Hload Hidle Hempty s'. subst s'.
  unfold exec. rewrite scan_resolved, Hempty. cbn [snd].
  assert (Hdis : recordButtonDisabled (with_cameras [] s) = false).
  { unfold recordButtonDisabled. cbn. now rewrite Hload, Hsel. }
  split; [reflexivity|]. split; [exact Hdis|]. split.
  - rewrite pressRecord_unfold, Hdis.
    replace (isRecording (recording (with_cameras [] s))) with false
      by (symmetry; exact Hidle).
    reflexivity.
  - unfold startEffects, cameraStartFails, noneOf.
    replace (selectedCamera (with_cameras [] s)) with (Some c)
      by (symmetry; exact Hsel).
    split.
    + intros e Hin.
      destruct (gpsAvailable w); destruct (cameraMounted (with_cameras [] s));
        destruct (isRejected (startAck w)); simpl in Hin;
        repeat (destruct Hin as [Hin|Hin]; [subst e; reflexivity|]);
        destruct Hin.
    + simpl. now left.
Qed.

Lemma stale_selection_still_records_witness :
  let s' := exec (scanForCameras (Resolved []) (Resolved [keyboard])) readyState in
  cameras s' = []
  /\ recordButtonDisabled s' = false
  /\ isRecording (recording (step (PressRecord quietWorld) s')) = true.
Proof.
  destruct (stale_selection_still_records readyState (builtinEntry backCamera)
              [] [keyboard] quietWorld) as (_ & Hdis & _); try reflexivity.
  cbv zeta. split; [reflexivity|]. split; [exact Hdis | reflexivity].
Defined.

(** ** GPS sampling around the capture *)









